(** * OpenVPN client events (openvpn/client/clievent.hpp)

    A shallow embedding of the client event model: the enumeration of event
    types with its name table, the [Base] class and the event structs derived
    from it, together with the properties the specification states about
    them. *)

From Stdlib Require Import ZArith List String Ascii Bool Lia.
Import ListNotations.

Local Open Scope string_scope.
Local Open Scope Z_scope.

Module ClientEvent.

(** ** The enumeration [Type]

    An unscoped C++ enumeration is a family of named integer constants: the
    first enumerator is given the value 0 and every enumerator without an
    initialiser is its predecessor plus one.  An object of the enumeration
    type holds an integer, which is what [event_name] and [Base] operate on,
    so the enumerators are embedded as constants of type [Z]. *)

Definition Type_ : Set := Z.

(* normal events including disconnected, connected, and other transitional events *)
Definition DISCONNECTED : Type_ := 0.
Definition CONNECTED : Type_ := Z.succ DISCONNECTED.
Definition RECONNECTING : Type_ := Z.succ CONNECTED.
Definition RESOLVE : Type_ := Z.succ RECONNECTING.
Definition WAIT : Type_ := Z.succ RESOLVE.
Definition WAIT_PROXY : Type_ := Z.succ WAIT.
Definition CONNECTING : Type_ := Z.succ WAIT_PROXY.
Definition GET_CONFIG : Type_ := Z.succ CONNECTING.
Definition ASSIGN_IP : Type_ := Z.succ GET_CONFIG.
Definition ADD_ROUTES : Type_ := Z.succ ASSIGN_IP.
Definition PAUSE : Type_ := Z.succ ADD_ROUTES.
Definition RESUME : Type_ := Z.succ PAUSE.
(* start of errors, must be marked by ERROR_START below *)
Definition AUTH_FAILED : Type_ := Z.succ RESUME.
Definition CERT_VERIFY_FAIL : Type_ := Z.succ AUTH_FAILED.
Definition CLIENT_HALT : Type_ := Z.succ CERT_VERIFY_FAIL.
Definition CLIENT_RESTART : Type_ := Z.succ CLIENT_HALT.
Definition CONNECTION_TIMEOUT : Type_ := Z.succ CLIENT_RESTART.
Definition INACTIVE_TIMEOUT : Type_ := Z.succ CONNECTION_TIMEOUT.
Definition DYNAMIC_CHALLENGE : Type_ := Z.succ INACTIVE_TIMEOUT.
Definition PROXY_NEED_CREDS : Type_ := Z.succ DYNAMIC_CHALLENGE.
Definition PROXY_ERROR : Type_ := Z.succ PROXY_NEED_CREDS.
Definition TUN_SETUP_FAILED : Type_ := Z.succ PROXY_ERROR.
Definition TUN_IFACE_CREATE : Type_ := Z.succ TUN_SETUP_FAILED.
Definition EPKI_ERROR : Type_ := Z.succ TUN_IFACE_CREATE.
Definition EPKI_INVALID_ALIAS : Type_ := Z.succ EPKI_ERROR.

Definition N_TYPES : Type_ := Z.succ EPKI_INVALID_ALIAS.

(* start of error events *)
Definition ERROR_START : Z := AUTH_FAILED.

(** The event kinds proper, in declaration order ([N_TYPES] is the count, not
    a kind). *)
Definition kinds : list Type_ :=
  [ DISCONNECTED; CONNECTED; RECONNECTING; RESOLVE; WAIT; WAIT_PROXY;
    CONNECTING; GET_CONFIG; ASSIGN_IP; ADD_ROUTES; PAUSE; RESUME;
    AUTH_FAILED; CERT_VERIFY_FAIL; CLIENT_HALT; CLIENT_RESTART;
    CONNECTION_TIMEOUT; INACTIVE_TIMEOUT; DYNAMIC_CHALLENGE;
    PROXY_NEED_CREDS; PROXY_ERROR; TUN_SETUP_FAILED; TUN_IFACE_CREATE;
    EPKI_ERROR; EPKI_INVALID_ALIAS ].

(** ** [event_name] *)

(** The static table of [event_name]. *)
Definition names : list string :=
  [ "DISCONNECTED";
    "CONNECTED";
    "RECONNECTING";
    "RESOLVE";
    "WAIT";
    "WAIT_PROXY";
    "CONNECTING";
    "GET_CONFIG";
    "ASSIGN_IP";
    "ADD_ROUTES";
    "PAUSE";
    "RESUME";
    "AUTH_FAILED";
    "CERT_VERIFY_FAIL";
    "CLIENT_HALT";
    "CLIENT_RESTART";
    "CONNECTION_TIMEOUT";
    "INACTIVE_TIMEOUT";
    "DYNAMIC_CHALLENGE";
    "PROXY_NEED_CREDS";
    "PROXY_ERROR";
    "TUN_SETUP_FAILED";
    "TUN_IFACE_CREATE";
    "EPKI_ERROR";
    "EPKI_INVALID_ALIAS" ].

(** Subscripting a built-in array, [a[i]].  Nothing checks the index: a read
    before the first or past the last element has no defined result, which is
    [None] here. *)
Definition subscript {A : Type} (a : list A) (i : Z) : option A :=
  if i <? 0 then None else nth_error a (Z.to_nat i).

(** [event_name].  Its only test is [type < N_TYPES].  Both operands have the
    enumeration type and are promoted before they are compared; every
    enumerator fits in [int], so the promoted type is [int] and the
    comparison is the signed one ([is_error] below spells the same conversion
    out as [int(id_)]).  The ordinal of this model is that promoted value. *)
Definition event_name (type : Type_) : option string :=
  if type <? N_TYPES
  then subscript names type
  else Some "UNKNOWN_EVENT_TYPE".

(** ** The [Base] class *)

(** The data of a [Base] subobject: the private member [id_].  (The
    reference count inherited from [RC] plays no part in any member
    function below.) *)
Record Base : Set := mkBase { id_ : Type_ }.

(** The public data members of [struct Connected], in declaration order. *)
Record Connected_members : Set := mkConnected {
  user : string;
  server_host : string;
  server_port : string;
  server_proto : string;
  server_ip : string;
  vpn_ip4 : string;
  vpn_ip6 : string;
  client_ip : string;
  tun_name : string
}.

(** An event object, by the class that provides its [render]:
    - [Base] itself and the structs that derive from it without adding a
      member or overriding anything ([Resolve] ... [InactiveTimeout]);
    - [Connected];
    - [ReasonBase] and the structs derived from it ([AuthFailed] ...
      [EpkiInvalidAlias]). *)
Inductive Event : Set :=
| BaseObj (b : Base)
| ConnectedObj (b : Base) (m : Connected_members)
| ReasonObj (b : Base) (reason : string).

(** The [Base] subobject of an event (the implicit derived-to-base
    conversion). *)
Definition base (e : Event) : Base :=
  match e with
  | BaseObj b => b
  | ConnectedObj b _ => b
  | ReasonObj b _ => b
  end.

(** [Base::id]. *)
Definition id (this : Event) : Type_ := id_ (base this).

(** [Base::name]. *)
Definition name (this : Event) : option string :=
  event_name (id_ (base this)).

(** [Base::is_error]. *)
Definition is_error (this : Event) : bool :=
  id_ (base this) >=? ERROR_START.

(** [std::ostringstream]: the characters written so far.  The inserters for
    [std::string], string literals and [char] append their argument (the
    stream is fresh, so no field width or fill applies). *)
Definition ostringstream : Set := string.

Definition insert (out : ostringstream) (s : string) : ostringstream :=
  (out ++ s)%string.

Definition insert_char (out : ostringstream) (c : ascii) : ostringstream :=
  (out ++ String c EmptyString)%string.

Definition str (out : ostringstream) : string := out.

Infix "<<" := insert (at level 50, left associativity).
Infix "<<'" := insert_char (at level 50, left associativity).

(** [Base::render], the default. *)
Definition Base_render : string := "".

(** [Connected::render]. *)
Definition Connected_render (m : Connected_members) : string :=
  let out : ostringstream := "" in
  (* eg. "godot@foo.bar.gov:443 (1.2.3.4) via TCPv4 on tun0/5.5.1.1" *)
  let out :=
    out << user m <<' "@" << server_host m <<' ":" << server_port m
        << " (" << server_ip m << ") via " << client_ip m <<' "/" << server_proto m
        << " on " << tun_name m <<' "/" << vpn_ip4 m <<' "/" << vpn_ip6 m in
  str out.

(** [ReasonBase::render]. *)
Definition ReasonBase_render (reason : string) : string := reason.

(** The virtual call [render()]: dispatch on the class of the object. *)
Definition render (this : Event) : string :=
  match this with
  | BaseObj _ => Base_render
  | ConnectedObj _ m => Connected_render m
  | ReasonObj _ reason => ReasonBase_render reason
  end.

(** [Base::connected_cast].  The result is a pointer: [None] is [NULL],
    [Some e] points to the object [e] (here always [this], whatever its
    class, since the cast is unchecked). *)
Definition connected_cast (this : Event) : option Event :=
  if id_ (base this) =? CONNECTED
  then Some this
  else None.

(** ** Constructors *)

(** [Base(Type id) : id_(id) {}] *)
Definition Base_ctor (id : Type_) : Base := {| id_ := id |}.

Definition Resolve : Event := BaseObj (Base_ctor RESOLVE).
Definition Wait : Event := BaseObj (Base_ctor WAIT).
Definition WaitProxy : Event := BaseObj (Base_ctor WAIT_PROXY).
Definition Connecting : Event := BaseObj (Base_ctor CONNECTING).
Definition Reconnecting : Event := BaseObj (Base_ctor RECONNECTING).
Definition GetConfig : Event := BaseObj (Base_ctor GET_CONFIG).
Definition AssignIP : Event := BaseObj (Base_ctor ASSIGN_IP).
Definition AddRoutes : Event := BaseObj (Base_ctor ADD_ROUTES).
Definition Pause : Event := BaseObj (Base_ctor PAUSE).
Definition Resume : Event := BaseObj (Base_ctor RESUME).
Definition Disconnected : Event := BaseObj (Base_ctor DISCONNECTED).
Definition ConnectionTimeout : Event := BaseObj (Base_ctor CONNECTION_TIMEOUT).
Definition InactiveTimeout : Event := BaseObj (Base_ctor INACTIVE_TIMEOUT).

(** [Connected() : Base(CONNECTED) {}]: the nine strings are
    default-constructed, hence empty. *)
Definition Connected : Event :=
  ConnectedObj (Base_ctor CONNECTED) (mkConnected "" "" "" "" "" "" "" "" "").

(** The data members of [Connected] are public and the constructor takes no
    argument: the producer of the event stores the nine strings after
    construction.  [Connected_with m] is the object once it holds [m]. *)
Definition Connected_with (m : Connected_members) : Event :=
  ConnectedObj (Base_ctor CONNECTED) m.

(** [ReasonBase(const Type id, const std::string& reason_arg)
      : Base(id), reason(reason_arg) {}] *)
Definition ReasonBase (id : Type_) (reason_arg : string) : Event :=
  ReasonObj (Base_ctor id) reason_arg.

Definition AuthFailed (reason : string) : Event := ReasonBase AUTH_FAILED reason.
Definition CertVerifyFail (reason : string) : Event := ReasonBase CERT_VERIFY_FAIL reason.
Definition ClientHalt (reason : string) : Event := ReasonBase CLIENT_HALT reason.
Definition ClientRestart (reason : string) : Event := ReasonBase CLIENT_RESTART reason.
Definition DynamicChallenge (reason : string) : Event := ReasonBase DYNAMIC_CHALLENGE reason.
Definition ProxyError (reason : string) : Event := ReasonBase PROXY_ERROR reason.
Definition ProxyNeedCreds (reason : string) : Event := ReasonBase PROXY_NEED_CREDS reason.
Definition TunSetupFailed (reason : string) : Event := ReasonBase TUN_SETUP_FAILED reason.
Definition TunIfaceCreate (reason : string) : Event := ReasonBase TUN_IFACE_CREATE reason.
Definition EpkiError (reason : string) : Event := ReasonBase EPKI_ERROR reason.
Definition EpkiInvalidAlias (reason : string) : Event := ReasonBase EPKI_INVALID_ALIAS reason.

(** The structs without data of their own, in the order of the source. *)
Definition empty_events : list Event :=
  [ Resolve; Wait; WaitProxy; Connecting; Reconnecting; GetConfig; AssignIP;
    AddRoutes; Pause; Resume; Disconnected; ConnectionTimeout;
    InactiveTimeout ].

(** The constructors of the structs derived from [ReasonBase], in the order
    of the source. *)
Definition reason_events : list (string -> Event) :=
  [ AuthFailed; CertVerifyFail; ClientHalt; ClientRestart; DynamicChallenge;
    ProxyError; ProxyNeedCreds; TunSetupFailed; TunIfaceCreate; EpkiError;
    EpkiInvalidAlias ].

(** The events the producers of this header can build: an object of one of
    the 25 structs. *)
Inductive constructed : Event -> Prop :=
| constructed_empty (e : Event) :
    In e empty_events -> constructed e
| constructed_connected (m : Connected_members) :
    constructed (Connected_with m)
| constructed_reason (ctor : string -> Event) (reason : string) :
    In ctor reason_events -> constructed (ctor reason).

(** ** Calls on an event

    Every member function of [Base] and of the structs derived from it is
    declared [const], and [id_] is private with no member that assigns it: a
    call reads the object and returns control with the object as it was.
    [call] runs one member function on [this] and gives its result together
    with the object after the call; [calls] runs a sequence of them. *)

Inductive Method : Set :=
| m_id | m_name | m_is_error | m_render | m_connected_cast.

Inductive Result : Set :=
| r_id (t : Type_)
| r_name (s : option string)
| r_is_error (b : bool)
| r_render (s : string)
| r_connected_cast (p : option Event).

Definition call (m : Method) (this : Event) : Result * Event :=
  match m with
  | m_id => (r_id (id this), this)
  | m_name => (r_name (name this), this)
  | m_is_error => (r_is_error (is_error this), this)
  | m_render => (r_render (render this), this)
  | m_connected_cast => (r_connected_cast (connected_cast this), this)
  end.

Fixpoint calls (ms : list Method) (this : Event) : list Result * Event :=
  match ms with
  | [] => ([], this)
  | m :: ms' =>
      let (r, this') := call m this in
      let (rs, this'') := calls ms' this' in
      (r :: rs, this'')
  end.

(** What a result of [name()] or [is_error()] (or [id()]) must be for an
    object whose stored type is [t]. *)
Definition determined_by (t : Type_) (r : Result) : Prop :=
  match r with
  | r_id t' => t' = t
  | r_name s => s = event_name t
  | r_is_error b => b = (t >=? ERROR_START)
  | r_render _ => True
  | r_connected_cast _ => True
  end.


(** ** Auxiliary notions for the statements below *)

(** The number of occurrences of the character [c] in [s]. *)
Fixpoint count_char (c : ascii) (s : string) : nat :=
  match s with
  | EmptyString => 0%nat
  | String d s' =>
      ((if Ascii.eqb c d then 1 else 0) + count_char c s')%nat
  end.

(** The example given in the comment of [Connected::render]. *)
Definition render_comment_example : string :=
  "godot@foo.bar.gov:443 (1.2.3.4) via TCPv4 on tun0/5.5.1.1".

(** One object of each of the 25 structs (the reason and the members of
    [Connected] left empty). *)
Definition one_of_each : list Event :=
  (empty_events ++ map (fun ctor : string -> Event => ctor "") reason_events
     ++ [Connected])%list.


(** * Properties *)

(** ** Strings *)

Section Strings.

Local Open Scope string_scope.

Lemma append_assoc (s1 s2 s3 : string) :
  (s1 ++ s2) ++ s3 = s1 ++ (s2 ++ s3).
Proof.
  induction s1 as [|c s1 IH]; simpl.
  - reflexivity.
  - now rewrite IH.
Qed.

Lemma length_append (s1 s2 : string) :
  String.length (s1 ++ s2) = (String.length s1 + String.length s2)%nat.
Proof.
  induction s1 as [|c s1 IH]; simpl.
  - reflexivity.
  - now rewrite IH.
Qed.

Lemma insert_assoc (out : ostringstream) (s t : string) :
  out << s << t = out << (s ++ t).
Proof. unfold insert. apply append_assoc. Qed.

Lemma insert_char_insert (out : ostringstream) (c : ascii) (t : string) :
  out <<' c << t = out << String c t.
Proof. unfold insert, insert_char. now rewrite append_assoc. Qed.

Lemma insert_empty (s : string) : insert "" s = s.
Proof. reflexivity. Qed.

End Strings.

(** ** The enumeration and its table *)

(** Case analysis on a hypothesis [H : In x [a; b; ...]] of a literal list,
    closing each case [a = x] (or [x = a]) with [tac]. *)
Ltac in_cases H tac :=
  simpl in H;
  repeat (destruct H as [H|H]; [tac H|]);
  try contradiction.

Lemma kinds_values :
  kinds = [0; 1; 2; 3; 4; 5; 6; 7; 8; 9; 10; 11; 12; 13; 14; 15; 16; 17; 18;
           19; 20; 21; 22; 23; 24].
Proof. reflexivity. Qed.

Lemma N_TYPES_value : N_TYPES = 25.
Proof. reflexivity. Qed.

Lemma ERROR_START_value : ERROR_START = 12.
Proof. reflexivity. Qed.

Lemma names_length : Z.of_nat (List.length names) = N_TYPES.
Proof. reflexivity. Qed.

(** The kinds are exactly the integers of [0, N_TYPES). *)
Lemma In_kinds_iff (t : Type_) : In t kinds <-> 0 <= t < N_TYPES.
Proof.
  rewrite kinds_values, N_TYPES_value. split.
  - intros H. in_cases H ltac:(fun E => subst t; lia).
  - intros [H0 H25].
    assert (Hn : t = Z.of_nat (Z.to_nat t)) by lia.
    assert (Hb : (Z.to_nat t < 25)%nat) by lia.
    rewrite Hn. clear Hn H0 H25.
    generalize dependent (Z.to_nat t). intros n Hb.
    do 25 (destruct n as [|n]; [simpl; tauto|]). lia.
Qed.

(** A subscript within the array reads an element; one outside it does
    not. *)
Lemma subscript_Some {A : Type} (a : list A) (i : Z) :
  0 <= i < Z.of_nat (List.length a) -> exists x, subscript a i = Some x.
Proof.
  intros [H0 Hlen]. unfold subscript.
  destruct (Z.ltb_spec i 0) as [Hneg|_]; [lia|].
  destruct (nth_error a (Z.to_nat i)) as [x|] eqn:E.
  - now exists x.
  - apply nth_error_None in E. lia.
Qed.

Lemma subscript_None {A : Type} (a : list A) (i : Z) :
  i < 0 \/ Z.of_nat (List.length a) <= i -> subscript a i = None.
Proof.
  intros H. unfold subscript.
  destruct (Z.ltb_spec i 0) as [Hneg|Hpos]; [reflexivity|].
  apply nth_error_None. lia.
Qed.

Lemma event_name_unknown (t : Type_) :
  N_TYPES <= t -> event_name t = Some "UNKNOWN_EVENT_TYPE".
Proof.
  intros H. unfold event_name.
  destruct (Z.ltb_spec t N_TYPES) as [Hlt|_]; [lia|reflexivity].
Qed.

Lemma event_name_subscript (t : Type_) :
  t < N_TYPES -> event_name t = subscript names t.
Proof.
  intros H. unfold event_name.
  destruct (Z.ltb_spec t N_TYPES) as [_|Hge]; [reflexivity|lia].
Qed.

Lemma event_name_negative (t : Type_) :
  t < 0 -> event_name t = None.
Proof.
  intros H. rewrite event_name_subscript.
  - apply subscript_None. now left.
  - rewrite N_TYPES_value. lia.
Qed.

Lemma names_not_unknown : ~ In "UNKNOWN_EVENT_TYPE" names.
Proof. simpl. intuition discriminate. Qed.

(** Within the table, [event_name] reads an element of [names]. *)
Lemma event_name_in_table (t : Type_) :
  0 <= t < N_TYPES ->
  exists s, event_name t = Some s /\
            nth_error names (Z.to_nat t) = Some s /\ In s names.
Proof.
  intros Ht. rewrite event_name_subscript by lia.
  destruct (subscript_Some names t) as [s Hs].
  { rewrite names_length. exact Ht. }
  exists s. split; [exact Hs|].
  unfold subscript in Hs.
  destruct (Z.ltb_spec t 0) as [Hneg|_]; [lia|].
  split; [exact Hs|]. eapply nth_error_In. exact Hs.
Qed.

(** The result is "UNKNOWN_EVENT_TYPE" for the ordinals from [N_TYPES] on and
    for no other. *)
Lemma event_name_unknown_iff (t : Type_) :
  event_name t = Some "UNKNOWN_EVENT_TYPE" <-> N_TYPES <= t.
Proof.
  split; [|apply event_name_unknown].
  intros Hname.
  destruct (Z.lt_ge_cases t N_TYPES) as [Hlt|Hge]; [|exact Hge].
  exfalso. destruct (Z.lt_ge_cases t 0) as [Hneg|Hpos].
  - rewrite event_name_negative in Hname by exact Hneg. discriminate.
  - destruct (event_name_in_table t) as [s [Hs [_ Hin]]]; [lia|].
    rewrite Hs in Hname. injection Hname as ->.
    exact (names_not_unknown Hin).
Qed.

(** ** Rendering *)

(** [Connected::render] as one concatenation. *)
Lemma Connected_render_concat (m : Connected_members) :
  Connected_render m =
  (user m ++ "@" ++ server_host m ++ ":" ++ server_port m ++ " (" ++
   server_ip m ++ ") via " ++ client_ip m ++ "/" ++ server_proto m ++
   " on " ++ tun_name m ++ "/" ++ vpn_ip4 m ++ "/" ++ vpn_ip6 m)%string.
Proof.
  unfold Connected_render, str.
  repeat (rewrite ?insert_char_insert, ?insert_assoc).
  rewrite insert_empty.
  repeat (rewrite ?append_assoc; simpl).
  reflexivity.
Qed.

(** The fixed tokens account for 17 characters of every rendering. *)
Lemma Connected_render_length (m : Connected_members) :
  String.length (Connected_render m) =
  (17 + (String.length (user m) + String.length (server_host m) +
         String.length (server_port m) + String.length (server_ip m) +
         String.length (client_ip m) + String.length (server_proto m) +
         String.length (tun_name m) + String.length (vpn_ip4 m) +
         String.length (vpn_ip6 m)))%nat.
Proof.
  rewrite Connected_render_concat.
  repeat (rewrite length_append; simpl String.length).
  lia.
Qed.

(** ** Calls *)

Lemma call_const (m : Method) (this : Event) : snd (call m this) = this.
Proof. destruct m; reflexivity. Qed.

Lemma call_determined (m : Method) (this : Event) :
  determined_by (id this) (fst (call m this)).
Proof. destruct m; simpl; reflexivity || exact I. Qed.

Lemma calls_const (ms : list Method) (this : Event) :
  snd (calls ms this) = this.
Proof.
  revert this. induction ms as [|m ms IH]; intros this; simpl.
  - reflexivity.
  - pose proof (call_const m this) as Hc.
    destruct (call m this) as [r this']. simpl in Hc. subst this'.
    specialize (IH this).
    destruct (calls ms this) as [rs this'']. exact IH.
Qed.

Lemma calls_determined (ms : list Method) (this : Event) :
  Forall (determined_by (id this)) (fst (calls ms this)).
Proof.
  revert this. induction ms as [|m ms IH]; intros this; simpl.
  - constructor.
  - pose proof (call_const m this) as Hc.
    pose proof (call_determined m this) as Hd.
    destruct (call m this) as [r this']. simpl in Hc, Hd. subst this'.
    specialize (IH this).
    destruct (calls ms this) as [rs this'']. simpl in *.
    now constructor.
Qed.


(** ** The properties of the specification *)

(** C1.  [is_error] is true exactly when the stored type is at or after
    [AUTH_FAILED]: it is true for every event whose type is one of
    [AUTH_FAILED] ... [EPKI_INVALID_ALIAS] and false for every event whose
    type is one of [DISCONNECTED] ... [RESUME]. *)
Theorem C1_is_error_threshold :
  (forall e : Event, is_error e = true <-> AUTH_FAILED <= id e) /\
  (forall e : Event,
     In (id e)
        [ AUTH_FAILED; CERT_VERIFY_FAIL; CLIENT_HALT; CLIENT_RESTART;
          CONNECTION_TIMEOUT; INACTIVE_TIMEOUT; DYNAMIC_CHALLENGE;
          PROXY_NEED_CREDS; PROXY_ERROR; TUN_SETUP_FAILED; TUN_IFACE_CREATE;
          EPKI_ERROR; EPKI_INVALID_ALIAS ] ->
     is_error e = true) /\
  (forall e : Event,
     In (id e)
        [ DISCONNECTED; CONNECTED; RECONNECTING; RESOLVE; WAIT; WAIT_PROXY;
          CONNECTING; GET_CONFIG; ASSIGN_IP; ADD_ROUTES; PAUSE; RESUME ] ->
     is_error e = false).
Proof.
  assert (Hiff : forall e : Event, is_error e = true <-> AUTH_FAILED <= id e).
  { intros e. unfold is_error, id, ERROR_START.
    rewrite Z.geb_leb. apply Z.leb_le. }
  split; [exact Hiff|split].
  - intros e Hin. apply Hiff. change AUTH_FAILED with 12.
    in_cases Hin ltac:(fun E => rewrite <- E; vm_compute; discriminate).
  - intros e Hin. apply not_true_is_false. rewrite Hiff.
    change AUTH_FAILED with 12.
    in_cases Hin ltac:(fun E => rewrite <- E; vm_compute; tauto).
Qed.

Lemma C1_witness :
  is_error (EpkiInvalidAlias "no such alias") = true /\
  is_error Resume = false.
Proof.
  destruct C1_is_error_threshold as [_ [Herr Hok]]. split.
  - apply Herr. vm_compute. tauto.
  - apply Hok. vm_compute. tauto.
Defined.

(** C2.  [render] of a [Connected] event is the concatenation of user, "@",
    server_host, ":", server_port, " (", server_ip, ") via ", client_ip, "/",
    server_proto, " on ", tun_name, "/", vpn_ip4, "/" and vpn_ip6, in this
    order; for alice on vpn.example.com it is the string of the
    specification. *)
Theorem C2_Connected_render :
  (forall m : Connected_members,
     render (Connected_with m) =
     (user m ++ "@" ++ server_host m ++ ":" ++ server_port m ++ " (" ++
      server_ip m ++ ") via " ++ client_ip m ++ "/" ++ server_proto m ++
      " on " ++ tun_name m ++ "/" ++ vpn_ip4 m ++ "/" ++ vpn_ip6 m)%string) /\
  render (Connected_with
            {| user := "alice";
               server_host := "vpn.example.com";
               server_port := "443";
               server_proto := "TCPv4";
               server_ip := "203.0.113.5";
               vpn_ip4 := "10.8.0.2";
               vpn_ip6 := "";
               client_ip := "198.51.100.9";
               tun_name := "tun0" |}) =
  "alice@vpn.example.com:443 (203.0.113.5) via 198.51.100.9/TCPv4 on tun0/10.8.0.2/".
Proof.
  split.
  - intros m. simpl. apply Connected_render_concat.
  - reflexivity.
Qed.

(** C3.  [event_name] maps each of the 25 kinds, of ordinals 0 to 24, to its
    own display string, and every ordinal from [N_TYPES] = 25 on to
    "UNKNOWN_EVENT_TYPE". *)
Theorem C3_event_name_table :
  map (fun k => (k, event_name k)) kinds =
    [ (0, Some "DISCONNECTED");
      (1, Some "CONNECTED");
      (2, Some "RECONNECTING");
      (3, Some "RESOLVE");
      (4, Some "WAIT");
      (5, Some "WAIT_PROXY");
      (6, Some "CONNECTING");
      (7, Some "GET_CONFIG");
      (8, Some "ASSIGN_IP");
      (9, Some "ADD_ROUTES");
      (10, Some "PAUSE");
      (11, Some "RESUME");
      (12, Some "AUTH_FAILED");
      (13, Some "CERT_VERIFY_FAIL");
      (14, Some "CLIENT_HALT");
      (15, Some "CLIENT_RESTART");
      (16, Some "CONNECTION_TIMEOUT");
      (17, Some "INACTIVE_TIMEOUT");
      (18, Some "DYNAMIC_CHALLENGE");
      (19, Some "PROXY_NEED_CREDS");
      (20, Some "PROXY_ERROR");
      (21, Some "TUN_SETUP_FAILED");
      (22, Some "TUN_IFACE_CREATE");
      (23, Some "EPKI_ERROR");
      (24, Some "EPKI_INVALID_ALIAS") ] /\
  N_TYPES = 25 /\
  (forall t : Type_,
     N_TYPES <= t -> event_name t = Some "UNKNOWN_EVENT_TYPE").
Proof.
  split; [reflexivity|]. split; [reflexivity|].
  exact event_name_unknown.
Qed.

Lemma C3_witness :
  N_TYPES <= 31 /\ event_name 31 = Some "UNKNOWN_EVENT_TYPE".
Proof.
  assert (H : N_TYPES <= 31) by (vm_compute; discriminate).
  split; [exact H|].
  exact (proj2 (proj2 C3_event_name_table) 31 H).
Defined.

(** C4, as the specification states it, fails at the ordinal -1: it is not
    the ordinal of a kind, it passes the test [type < N_TYPES], and the
    table is then read before its first element, so that the result is not
    "UNKNOWN_EVENT_TYPE". *)
Lemma C4_counterexample :
  ~ In (-1) kinds /\
  (-1 <? N_TYPES) = true /\
  subscript names (-1) = None /\
  event_name (-1) <> Some "UNKNOWN_EVENT_TYPE" /\
  ~ (forall t : Type_,
       ~ In t kinds -> event_name t = Some "UNKNOWN_EVENT_TYPE").
Proof.
  assert (Hnot : ~ In (-1) kinds).
  { rewrite In_kinds_iff. lia. }
  assert (Hne : event_name (-1) <> Some "UNKNOWN_EVENT_TYPE").
  { rewrite event_name_negative by lia. discriminate. }
  repeat split; try reflexivity; try assumption.
  intros Hall. exact (Hne (Hall (-1) Hnot)).
Qed.

(** C4, amended.  On the ordinals that are not negative [event_name] is
    total.  For the ordinal of one of the 25 kinds the result is the entry
    of the table at that ordinal, a read within the table, and it is not
    "UNKNOWN_EVENT_TYPE"; for every other ordinal, that is from [N_TYPES] on,
    the result is "UNKNOWN_EVENT_TYPE".  Nothing is stated of the negative
    ordinals, where the table is read before its first element. *)
Theorem C4_event_name_total (t : Type_) :
  0 <= t ->
  (In t kinds ->
   event_name t = nth_error names (Z.to_nat t) /\
   exists s : string,
     event_name t = Some s /\ In s names /\ s <> "UNKNOWN_EVENT_TYPE") /\
  (~ In t kinds -> event_name t = Some "UNKNOWN_EVENT_TYPE") /\
  (event_name t = Some "UNKNOWN_EVENT_TYPE" <-> ~ In t kinds) /\
  (exists s : string, event_name t = Some s).
Proof.
  intros H0.
  assert (Hkind : In t kinds ->
            event_name t = nth_error names (Z.to_nat t) /\
            exists s : string,
              event_name t = Some s /\ In s names /\
              s <> "UNKNOWN_EVENT_TYPE").
  { intros Hin. apply In_kinds_iff in Hin.
    destruct (event_name_in_table t Hin) as [s [Hs [Hn Hs_in]]].
    split; [congruence|].
    exists s. split; [exact Hs|]. split; [exact Hs_in|].
    intros ->. exact (names_not_unknown Hs_in). }
  assert (Hout : ~ In t kinds -> event_name t = Some "UNKNOWN_EVENT_TYPE").
  { intros Hnot. apply event_name_unknown.
    rewrite In_kinds_iff in Hnot. lia. }
  split; [exact Hkind|]. split; [exact Hout|]. split.
  - rewrite event_name_unknown_iff, In_kinds_iff. lia.
  - destruct (Z.lt_ge_cases t N_TYPES) as [Hlt|Hge].
    + destruct Hkind as [_ [s [Hs _]]].
      * apply In_kinds_iff. lia.
      * now exists s.
    + exists "UNKNOWN_EVENT_TYPE". now apply event_name_unknown.
Qed.

Lemma C4_witness :
  (0 <= 13 /\ In 13 kinds /\ event_name 13 = Some "CERT_VERIFY_FAIL") /\
  (0 <= 25 /\ ~ In 25 kinds /\ event_name 25 = Some "UNKNOWN_EVENT_TYPE").
Proof.
  assert (H13 : 0 <= 13) by lia.
  assert (Hin : In 13 kinds) by (simpl; tauto).
  assert (H25 : 0 <= 25) by lia.
  assert (Hout : ~ In 25 kinds).
  { intros H. in_cases H ltac:(fun E => discriminate E). }
  split.
  - split; [exact H13|]. split; [exact Hin|].
    exact (proj1 (proj1 (C4_event_name_total 13 H13) Hin)).
  - split; [exact H25|]. split; [exact Hout|].
    exact (proj1 (proj2 (C4_event_name_total 25 H25)) Hout).
Defined.

(** C5.  An event of any of the eleven structs derived from [ReasonBase]
    renders as the reason it was constructed with; constructed with
    "bad password" it renders as "bad password". *)
Theorem C5_reason_render :
  (forall reason : string,
     Forall (fun ctor : string -> Event => render (ctor reason) = reason)
            [ AuthFailed; CertVerifyFail; ClientHalt; ClientRestart;
              DynamicChallenge; ProxyError; ProxyNeedCreds; TunSetupFailed;
              TunIfaceCreate; EpkiError; EpkiInvalidAlias ]) /\
  Forall (fun ctor : string -> Event =>
            render (ctor "bad password") = "bad password")
         reason_events.
Proof.
  split.
  - intros reason. repeat constructor.
  - repeat constructor.
Qed.

(** C6.  Each of the thirteen structs that carry no data renders as the
    empty string. *)
Theorem C6_empty_render :
  Forall (fun e : Event => render e = "")
         [ Resolve; Wait; WaitProxy; Connecting; Reconnecting; GetConfig;
           AssignIP; AddRoutes; Pause; Resume; Disconnected;
           ConnectionTimeout; InactiveTimeout ].
Proof. repeat constructor. Qed.

(** C7.  For every constructed event, [connected_cast] is not null if and
    only if the type of the event is [CONNECTED]; for an event of any other
    type it is null, and when it is not null it points to the event itself,
    which is then a [Connected] object. *)
Theorem C7_connected_cast (e : Event) :
  constructed e ->
  (connected_cast e <> None <-> id e = CONNECTED) /\
  (id e <> CONNECTED -> connected_cast e = None) /\
  (id e = CONNECTED ->
   connected_cast e = Some e /\ exists m, e = Connected_with m).
Proof.
  intros Hc.
  assert (Hcast : connected_cast e = if id e =? CONNECTED then Some e else None)
    by reflexivity.
  destruct (Z.eqb_spec (id e) CONNECTED) as [Heq|Hne].
  - repeat split; try congruence.
    destruct Hc as [e Hin|m|ctor reason Hin].
    + in_cases Hin ltac:(fun E => subst e; discriminate Heq).
    + now exists m.
    + in_cases Hin ltac:(fun E => subst ctor; discriminate Heq).
  - repeat split; congruence.
Qed.

Lemma C7_witness :
  connected_cast (Connected_with (mkConnected "u" "h" "1194" "UDPv4" "" "" "" "" ""))
    <> None /\
  connected_cast (AuthFailed "bad password") = None.
Proof.
  split.
  - apply (C7_connected_cast (Connected_with _)).
    + apply constructed_connected.
    + reflexivity.
  - apply (C7_connected_cast (AuthFailed "bad password")).
    + apply (constructed_reason AuthFailed). simpl. tauto.
    + vm_compute. discriminate.
Defined.

(** C8.  [ConnectionTimeout] and [InactiveTimeout] carry no data and render
    as the empty string, while their types, [CONNECTION_TIMEOUT] and
    [INACTIVE_TIMEOUT], are at or after [AUTH_FAILED], so that [is_error] is
    true for both. *)
Theorem C8_timeouts :
  ConnectionTimeout = BaseObj (Base_ctor CONNECTION_TIMEOUT) /\
  InactiveTimeout = BaseObj (Base_ctor INACTIVE_TIMEOUT) /\
  render ConnectionTimeout = "" /\
  render InactiveTimeout = "" /\
  AUTH_FAILED <= id ConnectionTimeout /\
  AUTH_FAILED <= id InactiveTimeout /\
  is_error ConnectionTimeout = true /\
  is_error InactiveTimeout = true.
Proof.
  repeat split; try reflexivity; vm_compute; discriminate.
Qed.

(** C9.  An event carries the one type it was constructed with: the
    constructors store the type of their struct, no sequence of calls of
    [id], [name], [is_error], [render] and [connected_cast] changes the
    object, hence its stored type, and every result of [name] and
    [is_error] is [event_name] of the stored type and its comparison with
    [ERROR_START]. *)
Theorem C9_type_fixed :
  map id empty_events =
    [ RESOLVE; WAIT; WAIT_PROXY; CONNECTING; RECONNECTING; GET_CONFIG;
      ASSIGN_IP; ADD_ROUTES; PAUSE; RESUME; DISCONNECTED; CONNECTION_TIMEOUT;
      INACTIVE_TIMEOUT ] /\
  (forall reason : string,
     map (fun ctor : string -> Event => id (ctor reason)) reason_events =
       [ AUTH_FAILED; CERT_VERIFY_FAIL; CLIENT_HALT; CLIENT_RESTART;
         DYNAMIC_CHALLENGE; PROXY_ERROR; PROXY_NEED_CREDS; TUN_SETUP_FAILED;
         TUN_IFACE_CREATE; EPKI_ERROR; EPKI_INVALID_ALIAS ]) /\
  (forall m : Connected_members, id (Connected_with m) = CONNECTED) /\
  (forall (ms : list Method) (e : Event),
     snd (calls ms e) = e /\
     id (snd (calls ms e)) = id e /\
     Forall (determined_by (id e)) (fst (calls ms e))) /\
  (forall e : Event,
     name e = event_name (id e) /\
     is_error e = (id e >=? ERROR_START)).
Proof.
  split; [reflexivity|]. split; [reflexivity|]. split; [reflexivity|].
  split.
  - intros ms e. rewrite calls_const.
    split; [reflexivity|]. split; [reflexivity|].
    apply calls_determined.
  - intros e. split; reflexivity.
Qed.

(** C10.  [render] of a [Connected] event is never the empty string: the
    fixed tokens are written whatever the nine strings hold, and with all
    nine empty, as the constructor leaves them, the result is
    "@: () via / on //". *)
Theorem C10_Connected_render_skeleton :
  (forall m : Connected_members, render (Connected_with m) <> "") /\
  (forall m : Connected_members,
     (17 <= String.length (render (Connected_with m)))%nat) /\
  render (Connected_with (mkConnected "" "" "" "" "" "" "" "" "")) =
    "@: () via / on //" /\
  render Connected = "@: () via / on //".
Proof.
  assert (Hlen : forall m : Connected_members,
             (17 <= String.length (render (Connected_with m)))%nat).
  { intros m. simpl render. rewrite Connected_render_length. lia. }
  split; [|split; [exact Hlen|split; reflexivity]].
  intros m Hempty. specialize (Hlen m). rewrite Hempty in Hlen.
  simpl in Hlen. lia.
Qed.


(** ** Further properties of the name table *)

Lemma names_NoDup : NoDup names.
Proof.
  unfold names.
  repeat (constructor; [simpl; intuition discriminate|]).
  constructor.
Qed.

(** X1.  Two kinds with the same name are the same kind: [event_name] is
    injective on the 25 kinds. *)
Theorem X1_event_name_injective (t1 t2 : Type_) :
  In t1 kinds -> In t2 kinds ->
  event_name t1 = event_name t2 -> t1 = t2.
Proof.
  rewrite !In_kinds_iff. intros H1 H2 Heq.
  destruct (event_name_in_table t1 H1) as [s1 [Hs1 [Hn1 _]]].
  destruct (event_name_in_table t2 H2) as [s2 [Hs2 [Hn2 _]]].
  assert (Hs : s1 = s2) by congruence. subst s2.
  assert (Hnat : Z.to_nat t1 = Z.to_nat t2).
  { apply (proj1 (NoDup_nth_error names) names_NoDup).
    - apply nth_error_Some. rewrite Hn1. discriminate.
    - congruence. }
  lia.
Qed.

Lemma X1_witness :
  In PROXY_ERROR kinds /\ In 20 kinds /\ PROXY_ERROR = 20.
Proof.
  assert (H1 : In PROXY_ERROR kinds) by (simpl; tauto).
  assert (H2 : In 20 kinds) by (simpl; tauto).
  split; [exact H1|]. split; [exact H2|].
  apply (X1_event_name_injective PROXY_ERROR 20 H1 H2). reflexivity.
Defined.

(** X2.  [event_name] gives "UNKNOWN_EVENT_TYPE" exactly for the ordinals
    from [N_TYPES] on: no kind is displayed under that name. *)
Theorem X2_unknown_iff_out_of_range (t : Type_) :
  (event_name t = Some "UNKNOWN_EVENT_TYPE" <-> N_TYPES <= t) /\
  (In t kinds -> event_name t <> Some "UNKNOWN_EVENT_TYPE").
Proof.
  split; [apply event_name_unknown_iff|].
  intros Hin Hname. apply event_name_unknown_iff in Hname.
  apply In_kinds_iff in Hin. lia.
Qed.

Lemma X2_witness :
  In INACTIVE_TIMEOUT kinds /\
  event_name INACTIVE_TIMEOUT <> Some "UNKNOWN_EVENT_TYPE".
Proof.
  assert (H : In INACTIVE_TIMEOUT kinds) by (simpl; tauto).
  split; [exact H|].
  exact (proj2 (X2_unknown_iff_out_of_range INACTIVE_TIMEOUT) H).
Defined.

(** X3.  An event whose name is "UNKNOWN_EVENT_TYPE" is classified as an
    error, and an event that is not an error and whose stored type is not
    negative has one of the twelve names [DISCONNECTED] ... [RESUME]. *)
Theorem X3_unknown_is_error (e : Event) :
  (name e = Some "UNKNOWN_EVENT_TYPE" -> is_error e = true) /\
  (is_error e = false -> 0 <= id e ->
   exists s, name e = Some s /\ In s (firstn 12 names)).
Proof.
  unfold name, is_error. fold (id e). rewrite Z.geb_leb, ERROR_START_value.
  split.
  - intros Hname. apply event_name_unknown_iff in Hname.
    rewrite N_TYPES_value in Hname. apply Z.leb_le. lia.
  - intros Herr H0. apply Z.leb_gt in Herr.
    destruct (event_name_in_table (id e)) as [s [Hs [Hn _]]].
    { rewrite N_TYPES_value. lia. }
    exists s. split; [exact Hs|].
    assert (Hb : (Z.to_nat (id e) < 12)%nat) by lia.
    revert Hn. generalize (Z.to_nat (id e)) Hb. intros n Hn Hnth.
    do 12 (destruct n as [|n];
           [injection Hnth as <-; simpl; tauto|]).
    lia.
Qed.

Lemma X3_witness :
  is_error (BaseObj (Base_ctor N_TYPES)) = true /\
  exists s, name Pause = Some s /\ In s (firstn 12 names).
Proof.
  split.
  - apply (X3_unknown_is_error (BaseObj (Base_ctor N_TYPES))). reflexivity.
  - apply (X3_unknown_is_error Pause).
    + reflexivity.
    + vm_compute. discriminate.
Defined.


(** ** Further properties of the constructed events *)

Lemma one_of_each_constructed : Forall constructed one_of_each.
Proof.
  unfold one_of_each. rewrite !Forall_app. repeat split.
  - apply Forall_forall. intros e Hin. now apply constructed_empty.
  - apply Forall_forall. intros e Hin.
    apply in_map_iff in Hin. destruct Hin as [ctor [<- Hin]].
    now apply constructed_reason.
  - constructor; [|constructor].
    exact (constructed_connected (mkConnected "" "" "" "" "" "" "" "" "")).
Qed.

(** The stored type of a constructed event is one of the 25 kinds. *)
Lemma constructed_kind (e : Event) : constructed e -> In (id e) kinds.
Proof.
  intros [e' Hin|m|ctor reason Hin].
  - in_cases Hin ltac:(fun E => subst e'; simpl; tauto).
  - simpl. tauto.
  - in_cases Hin ltac:(fun E => subst ctor; simpl; tauto).
Qed.

(** The structs that carry a reason have types of the error band. *)
Lemma reason_is_error (ctor : string -> Event) (reason : string) :
  In ctor reason_events -> is_error (ctor reason) = true.
Proof.
  intros Hin. in_cases Hin ltac:(fun E => subst ctor; reflexivity).
Qed.

(** X4.  The structs and the kinds correspond: every constructed event
    stores one of the 25 kinds, and each of the 25 kinds is stored by some
    constructed event. *)
Theorem X4_kinds_covered (k : Type_) :
  In k kinds <-> exists e : Event, constructed e /\ id e = k.
Proof.
  split.
  - intros Hin.
    assert (Hmap : In k (map id one_of_each)).
    { in_cases Hin ltac:(fun E => subst k; simpl; tauto). }
    apply in_map_iff in Hmap. destruct Hmap as [e [Hid He]].
    exists e. split; [|exact Hid].
    exact (proj1 (Forall_forall _ _) one_of_each_constructed e He).
  - intros [e [Hc <-]]. now apply constructed_kind.
Qed.

(** X5.  The name of a constructed event is always an entry of the table:
    for such an event [name] neither reads outside the table nor gives
    "UNKNOWN_EVENT_TYPE". *)
Theorem X5_constructed_name (e : Event) :
  constructed e ->
  exists s : string,
    name e = Some s /\ In s names /\ s <> "UNKNOWN_EVENT_TYPE".
Proof.
  intros Hc. apply constructed_kind, In_kinds_iff in Hc.
  destruct (event_name_in_table (id e) Hc) as [s [Hs [_ Hin]]].
  exists s. split; [exact Hs|]. split; [exact Hin|].
  intros ->. exact (names_not_unknown Hin).
Qed.

Lemma X5_witness :
  exists s : string,
    name (TunIfaceCreate "no tun device") = Some s /\ In s names /\
    s <> "UNKNOWN_EVENT_TYPE".
Proof.
  apply (X5_constructed_name (TunIfaceCreate "no tun device")).
  apply (constructed_reason TunIfaceCreate). simpl. tauto.
Defined.

(** X6.  Each struct is displayed under the name of its own kind: the names
    of the thirteen structs without data, of the eleven structs with a
    reason (whatever the reason) and of [Connected] (whatever its
    members). *)
Theorem X6_struct_names :
  map name empty_events =
    map Some
      [ "RESOLVE"; "WAIT"; "WAIT_PROXY"; "CONNECTING"; "RECONNECTING";
        "GET_CONFIG"; "ASSIGN_IP"; "ADD_ROUTES"; "PAUSE"; "RESUME";
        "DISCONNECTED"; "CONNECTION_TIMEOUT"; "INACTIVE_TIMEOUT" ] /\
  (forall reason : string,
     map (fun ctor : string -> Event => name (ctor reason))
         [ AuthFailed; CertVerifyFail; ClientHalt; ClientRestart;
           DynamicChallenge; ProxyError; ProxyNeedCreds; TunSetupFailed;
           TunIfaceCreate; EpkiError; EpkiInvalidAlias ] =
     map Some
       [ "AUTH_FAILED"; "CERT_VERIFY_FAIL"; "CLIENT_HALT"; "CLIENT_RESTART";
         "DYNAMIC_CHALLENGE"; "PROXY_ERROR"; "PROXY_NEED_CREDS";
         "TUN_SETUP_FAILED"; "TUN_IFACE_CREATE"; "EPKI_ERROR";
         "EPKI_INVALID_ALIAS" ]) /\
  (forall m : Connected_members,
     name (Connected_with m) = Some "CONNECTED").
Proof.
  split; [reflexivity|]. split; intros; reflexivity.
Qed.

(** X7.  Every event constructed with a reason is an error, and the only
    constructed errors without a reason are the two timeouts. *)
Theorem X7_errors_have_reasons :
  (forall (ctor : string -> Event) (reason : string),
     In ctor reason_events -> is_error (ctor reason) = true) /\
  (forall e : Event,
     constructed e -> is_error e = true ->
     (exists (b : Base) (reason : string),
        e = ReasonObj b reason /\ render e = reason) \/
     e = ConnectionTimeout \/ e = InactiveTimeout).
Proof.
  split; [exact reason_is_error|].
  intros e [e' Hin|m|ctor reason Hin] Herr.
  - right.
    in_cases Hin ltac:(fun E => subst e'; first [discriminate Herr | tauto]).
  - discriminate Herr.
  - left.
    in_cases Hin ltac:(fun E => subst ctor; eexists; eexists; split; reflexivity).
Qed.

Lemma X7_witness :
  is_error (ProxyNeedCreds "") = true /\
  ((exists (b : Base) (reason : string),
      InactiveTimeout = ReasonObj b reason /\
      render InactiveTimeout = reason) \/
   InactiveTimeout = ConnectionTimeout \/ InactiveTimeout = InactiveTimeout).
Proof.
  destruct X7_errors_have_reasons as [Hreason Herr]. split.
  - apply Hreason. simpl. tauto.
  - apply Herr.
    + apply constructed_empty. simpl. tauto.
    + reflexivity.
Defined.

(** X8.  A constructed event that renders as a text that is not empty is
    either the [Connected] event or an error: the events of the normal band
    other than [CONNECTED] carry no text. *)
Theorem X8_text_only_on_connected_or_error (e : Event) :
  constructed e -> render e <> "" ->
  id e = CONNECTED \/ is_error e = true.
Proof.
  intros [e' Hin|m|ctor reason Hin] Htext.
  - exfalso. apply Htext.
    in_cases Hin ltac:(fun E => subst e'; reflexivity).
  - left. reflexivity.
  - right. now apply reason_is_error.
Qed.

Lemma X8_witness :
  id (ClientHalt "halted by server") = CONNECTED \/
  is_error (ClientHalt "halted by server") = true.
Proof.
  apply (X8_text_only_on_connected_or_error (ClientHalt "halted by server")).
  - apply (constructed_reason ClientHalt). simpl. tauto.
  - simpl. discriminate.
Defined.

(** X9.  [connected_cast] looks at the stored type only.  The constructor of
    [ReasonBase] is public and takes any type: an object built by
    [ReasonBase(CONNECTED, reason)] passes the cast, which is then not null,
    although the object is no [Connected] object. *)
Theorem X9_connected_cast_unchecked (reason : string) :
  (forall e : Event, connected_cast e = Some e <-> id e = CONNECTED) /\
  connected_cast (ReasonBase CONNECTED reason) =
    Some (ReasonBase CONNECTED reason) /\
  (forall m : Connected_members,
     ReasonBase CONNECTED reason <> Connected_with m) /\
  render (ReasonBase CONNECTED reason) = reason.
Proof.
  split; [|split; [reflexivity|split; [discriminate|reflexivity]]].
  intros e. unfold connected_cast. fold (id e).
  destruct (Z.eqb_spec (id e) CONNECTED) as [Heq|Hne].
  - tauto.
  - split; [discriminate|contradiction].
Qed.

(** X10.  When [connected_cast] is not null, the event it points to is the
    event itself, is named "CONNECTED" and is not an error. *)
Theorem X10_connected_view (e v : Event) :
  connected_cast e = Some v ->
  v = e /\ id v = CONNECTED /\ name v = Some "CONNECTED" /\
  is_error v = false.
Proof.
  unfold connected_cast. fold (id e).
  destruct (Z.eqb_spec (id e) CONNECTED) as [Heq|Hne]; [|discriminate].
  intros Hv. injection Hv as <-.
  unfold name, is_error. fold (id e). rewrite Heq.
  repeat split.
Qed.

Lemma X10_witness :
  Connected = Connected /\ id Connected = CONNECTED /\
  name Connected = Some "CONNECTED" /\ is_error Connected = false.
Proof.
  apply (X10_connected_view Connected Connected). reflexivity.
Defined.


(** ** Further properties of [Connected::render] *)

Lemma count_char_append (c : ascii) (s1 s2 : string) :
  count_char c (s1 ++ s2) = (count_char c s1 + count_char c s2)%nat.
Proof.
  induction s1 as [|d s1 IH]; simpl.
  - reflexivity.
  - rewrite IH. lia.
Qed.

Lemma append_length_neq (s t : string) :
  t <> ""%string -> (s ++ t)%string <> s.
Proof.
  intros Ht Heq.
  assert (Hlen : String.length (s ++ t) = String.length s) by now rewrite Heq.
  rewrite length_append in Hlen.
  destruct t as [|c t]; [now apply Ht|]. simpl in Hlen. lia.
Qed.

Lemma prefix_cons (a b : ascii) (s1 s2 : string) :
  prefix (String a s1) (String b s2) =
  if ascii_dec a b then prefix s1 s2 else false.
Proof. reflexivity. Qed.

Lemma index_0_cons (p : string) (b : ascii) (s : string) :
  index 0 p (String b s) =
  if prefix p (String b s) then Some 0%nat
  else match index 0 p s with
       | Some n => Some (S n)
       | None => None
       end.
Proof. reflexivity. Qed.

(** The first occurrence of a character that [u] does not hold, in [u]
    followed by that character, is right after [u]. *)
Lemma index_char_append (c : ascii) (u rest : string) :
  index 0 (String c "") u = None ->
  index 0 (String c "") (u ++ String c rest) = Some (String.length u).
Proof.
  induction u as [|d u IH]; intros Hnone.
  - change ("" ++ String c rest)%string with (String c rest).
    rewrite index_0_cons, prefix_cons.
    destruct (ascii_dec c c) as [_|Hne]; [|now elim Hne].
    destruct rest; reflexivity.
  - change (String d u ++ String c rest)%string
      with (String d (u ++ String c rest)).
    rewrite index_0_cons, prefix_cons in *.
    destruct (ascii_dec c d) as [Heq|Hne];
      [destruct u; discriminate Hnone|].
    destruct (index 0 (String c "") u) as [n|] eqn:E; [discriminate Hnone|].
    rewrite IH by reflexivity. reflexivity.
Qed.

Lemma substring_append (u rest : string) :
  substring 0 (String.length u) (u ++ rest) = u.
Proof.
  induction u as [|d u IH]; simpl.
  - destruct rest; reflexivity.
  - now rewrite IH.
Qed.

(** X11.  The rendering of a [Connected] event is as long as its nine
    members together, plus the 17 characters of the fixed tokens. *)
Theorem X11_Connected_render_length (m : Connected_members) :
  String.length (render (Connected_with m)) =
  (17 + (String.length (user m) + String.length (server_host m) +
         String.length (server_port m) + String.length (server_ip m) +
         String.length (client_ip m) + String.length (server_proto m) +
         String.length (tun_name m) + String.length (vpn_ip4 m) +
         String.length (vpn_ip6 m)))%nat.
Proof. simpl render. apply Connected_render_length. Qed.

(** X12.  The rendering does not delimit the members: an "@" at the end of
    the user and the same "@" at the start of the server host give the same
    text, for different members.  [render] is not injective on [Connected]
    events. *)
Theorem X12_Connected_render_ambiguous
    (u h port proto ip v4 v6 cip tun : string) :
  let m1 := mkConnected (u ++ "@") h port proto ip v4 v6 cip tun in
  let m2 := mkConnected u ("@" ++ h) port proto ip v4 v6 cip tun in
  m1 <> m2 /\
  Connected_with m1 <> Connected_with m2 /\
  render (Connected_with m1) = render (Connected_with m2).
Proof.
  intros m1 m2.
  assert (Hne : m1 <> m2).
  { intros Heq. apply (f_equal user) in Heq. simpl in Heq.
    revert Heq. apply append_length_neq. discriminate. }
  split; [exact Hne|]. split.
  - intros Heq. apply Hne. unfold Connected_with in Heq. congruence.
  - simpl render. rewrite !Connected_render_concat. simpl.
    rewrite !append_assoc. reflexivity.
Qed.

(** X13.  Every rendering of a [Connected] event holds the three "/" of the
    fixed tokens besides those of its members.  The example in the comment
    of [Connected::render], which holds a single "/", is therefore the
    rendering of no [Connected] event. *)
Theorem X13_Connected_render_slashes (m : Connected_members) :
  count_char "/" (render (Connected_with m)) =
  (3 + (count_char "/" (user m) + count_char "/" (server_host m) +
        count_char "/" (server_port m) + count_char "/" (server_ip m) +
        count_char "/" (client_ip m) + count_char "/" (server_proto m) +
        count_char "/" (tun_name m) + count_char "/" (vpn_ip4 m) +
        count_char "/" (vpn_ip6 m)))%nat /\
  render (Connected_with m) <> render_comment_example.
Proof.
  assert (Hcount :
    count_char "/" (render (Connected_with m)) =
    (3 + (count_char "/" (user m) + count_char "/" (server_host m) +
          count_char "/" (server_port m) + count_char "/" (server_ip m) +
          count_char "/" (client_ip m) + count_char "/" (server_proto m) +
          count_char "/" (tun_name m) + count_char "/" (vpn_ip4 m) +
          count_char "/" (vpn_ip6 m)))%nat).
  { simpl render. rewrite Connected_render_concat.
    repeat (rewrite count_char_append; simpl count_char).
    lia. }
  split; [exact Hcount|].
  intros Heq. rewrite Heq in Hcount.
  change (count_char "/" render_comment_example) with 1%nat in Hcount.
  lia.
Qed.

(** X14.  When the user holds no "@", the user can be read back from the
    rendering: the first "@" of the rendering is right after the user, and
    the text before it is the user. *)
Theorem X14_user_recovered (m : Connected_members) :
  index 0 "@" (user m) = None ->
  index 0 "@" (render (Connected_with m)) = Some (String.length (user m)) /\
  substring 0 (String.length (user m)) (render (Connected_with m)) = user m.
Proof.
  intros Hnone. simpl render. rewrite Connected_render_concat. split.
  - change ("@" ++ ?x)%string with (String "@" x).
    now apply index_char_append.
  - apply substring_append.
Qed.

Lemma X14_witness :
  index 0 "@"
    (render (Connected_with
               (mkConnected "alice" "vpn.example.com" "443" "TCPv4"
                            "203.0.113.5" "10.8.0.2" "" "198.51.100.9"
                            "tun0"))) = Some 5%nat /\
  substring 0 5
    (render (Connected_with
               (mkConnected "alice" "vpn.example.com" "443" "TCPv4"
                            "203.0.113.5" "10.8.0.2" "" "198.51.100.9"
                            "tun0"))) = "alice"%string.
Proof.
  apply (X14_user_recovered
           (mkConnected "alice" "vpn.example.com" "443" "TCPv4"
                        "203.0.113.5" "10.8.0.2" "" "198.51.100.9" "tun0")).
  reflexivity.
Defined.

End ClientEvent.
